(** * moviepod: scripts/resize_image.py

    A shallow embedding of the image resizing script and the proofs of
    its specification.  The script is a straight line of library calls:
    open an image, compute a height for the fixed width 1920, resample,
    save, and print the two file sizes.

    The arithmetic of the script is Python's: [*] and [-] on unbounded
    integers, [/] the true division of two integers (a binary64 float,
    correctly rounded), [int] the truncation of a float, [float * int]
    the IEEE product, and [:.1f] the correctly rounded decimal
    formatting.  The imaging library and the file system are the
    script's collaborators: the decoder, the resampler and the encoder
    are parameters of the development, the file system is a finite map
    from paths to byte strings. *)

From Stdlib Require Import ZArith QArith Qabs Lia Bool.
From Stdlib.Strings Require Import Byte.
From stdpp Require Import gmap strings list pretty.

Local Open Scope Z_scope.

(** ** Python values *)

(** Exceptions the script can end with. *)
Inductive exn : Type :=
| FileNotFoundError      (* open or stat of a path that does not exist *)
| UnidentifiedImageError (* the source is not a decodable image *)
| ZeroDivisionError      (* [/] with a zero divisor *)
| OverflowError          (* [/] with a quotient beyond the floats, [int] of an infinity *)
| ValueError             (* [int] of a nan; the resampler's refusal *)
| OSError.               (* the output could not be written *)

Inductive result (A : Type) : Type :=
| Ok (a : A)
| Raise (e : exn).
Arguments Ok {A} a.
Arguments Raise {A} e.

(** A binary64 float.  A finite one is kept as sign, integer
    significand and exponent of two: [Finite s m e] is
    [(-1)^s * m * 2^e]. *)
Inductive pyfloat : Type :=
| Finite (neg : bool) (m e : Z)
| Inf (neg : bool)
| NaN.

Module Float.

(** The integer nearest to [x / y], ties to the even one
    ([0 <= x], [0 < y]). *)
Definition rne_div (x y : Z) : Z :=
  let q := x / y in
  let r := x mod y in
  if 2 * r <? y then q
  else if y <? 2 * r then q + 1
  else if Z.even q then q else q + 1.

(** [2^l <= n / d], without fractions. *)
Definition ge_pow2 (n d l : Z) : bool :=
  d * 2 ^ Z.max 0 l <=? n * 2 ^ Z.max 0 (- l).

(** [floor (log2 (n / d))] for [0 < n] and [0 < d]. *)
Definition ratio_log2 (n d : Z) : Z :=
  let l := Z.log2 n - Z.log2 d in
  if ge_pow2 n d l then l else l - 1.

(** The significand of [n / d] at the exponent [e], rounded. *)
Definition significand (n d e : Z) : Z :=
  rne_div (n * 2 ^ Z.max 0 (- e)) (d * 2 ^ Z.max 0 e).

(** Round the rational [n / d] ([0 <= n], [0 < d]) to binary64,
    to nearest and ties to even: 53 bits of significand, the least
    exponent -1074 (gradual underflow), an infinity from 2^1024 on. *)
Definition round (neg : bool) (n d : Z) : pyfloat :=
  if n =? 0 then Finite neg 0 0
  else
    let e := Z.max (ratio_log2 n d - 52) (-1074) in
    let m := significand n d e in
    if 1024 <=? Z.log2 m + e then Inf neg else Finite neg m e.

(** [a / b] on two Python integers. *)
Definition truediv (a b : Z) : result pyfloat :=
  if b =? 0 then Raise ZeroDivisionError
  else
    match round (xorb (a <? 0) (b <? 0)) (Z.abs a) (Z.abs b) with
    | Inf _ => Raise OverflowError
    | x => Ok x
    end.

(** [float(k)] for a Python integer. *)
Definition of_int (k : Z) : result pyfloat :=
  match round (k <? 0) (Z.abs k) 1 with
  | Inf _ => Raise OverflowError
  | x => Ok x
  end.

Definition is_zero (x : pyfloat) : bool :=
  match x with
  | Finite _ m _ => m =? 0
  | _ => false
  end.

(** [x * y] on two floats. *)
Definition mul (x y : pyfloat) : pyfloat :=
  match x, y with
  | NaN, _ | _, NaN => NaN
  | Inf s, Inf t => Inf (xorb s t)
  | Inf s, Finite t _ _ => if is_zero y then NaN else Inf (xorb s t)
  | Finite s _ _, Inf t => if is_zero x then NaN else Inf (xorb s t)
  | Finite s m1 e1, Finite t m2 e2 =>
      round (xorb s t) (m1 * m2 * 2 ^ Z.max 0 (e1 + e2)) (2 ^ Z.max 0 (- (e1 + e2)))
  end.

(** [x * k] for a float and a Python integer. *)
Definition mul_int (x : pyfloat) (k : Z) : result pyfloat :=
  match of_int k with
  | Ok y => Ok (mul x y)
  | Raise e => Raise e
  end.

(** [int(x)]: the integer part, toward zero. *)
Definition to_int (x : pyfloat) : result Z :=
  match x with
  | Finite s m e =>
      let t := m * 2 ^ Z.max 0 e / 2 ^ Z.max 0 (- e) in
      Ok (if s then - t else t)
  | Inf _ => Raise OverflowError
  | NaN => Raise ValueError
  end.

(** The absolute value of a finite float in tenths, rounded to the
    nearest integer, ties to even on the exact value of the float. *)
Definition tenths (x : pyfloat) : Z :=
  match x with
  | Finite _ m e => rne_div (m * 10 * 2 ^ Z.max 0 e) (2 ^ Z.max 0 (- e))
  | _ => 0
  end.

(** [f'{x:.1f}']: one digit after the point, correctly rounded. *)
Definition format_1f (x : pyfloat) : string :=
  match x with
  | Finite s _ _ =>
      let t := tenths x in
      (if s then "-" else "") +:+ pretty (t / 10) +:+ "." +:+ pretty (t mod 10)
  | Inf s => if s then "-inf" else "inf"
  | NaN => "nan"
  end.

End Float.

(** ** The computation of the new size (lines 12 to 14) *)

(** [int((target_width * original_height) / original_width)] *)
Definition calc_target_height (target_width original_width original_height : Z) : result Z :=
  match Float.truediv (target_width * original_height) original_width with
  | Ok q => Float.to_int q
  | Raise e => Raise e
  end.

(** ** The new height

    Pillow keeps the two dimensions of an image in C integers, and a
    PNG header has four bytes for each with the top bit clear: no
    image is wider or taller than 2^31 - 1. *)
Definition max_dimension : Z := 2 ^ 31 - 1.

(** ** Aspect ratio *)



(** ** The world of the script: files, console, library calls *)

Inductive resampling : Type := NEAREST | BOX | BILINEAR | HAMMING | BICUBIC | LANCZOS.

(** The calls the script makes to its collaborators, as they happen. *)
Inductive call : Type :=
| COpen (path : string)
| CResize (size : Z * Z) (filter : resampling)
| CSave (path : string) (format : string) (optimize : bool)
| CGetsize (path : string).

Record world : Type := World {
  files : gmap string (list byte);
  stdout : list string;
  calls : list call;
}.

(** What the operating system does with a request to write a file:
    all of it, none of it, or a prefix before an error. *)
Inductive write_outcome : Type :=
| Written
| Denied
| Partial (n : nat).

(** A computation that reads and changes the world and either returns
    or raises. *)
Definition M (A : Type) : Type := world -> result A * world.

#[export] Instance M_ret : MRet M := fun A a w => (Ok a, w).
#[export] Instance M_bind : MBind M := fun A B f m w =>
  match m w with
  | (Ok a, w1) => f a w1
  | (Raise e, w1) => (Raise e, w1)
  end.

Definition lift {A} (r : result A) : M A := fun w => (r, w).

(** The world after one more call. *)
Definition logged (c : call) (w : world) : world :=
  World (files w) (stdout w) (calls w ++ [c]).

Definition print (line : string) : M unit := fun w =>
  (Ok tt, World (files w) (stdout w ++ [line]) (calls w)).

(** [os.path.getsize(path)] *)
Definition getsize (path : string) : M Z := fun w =>
  match files w !! path with
  | Some data => (Ok (Z.of_nat (length data)), logged (CGetsize path) w)
  | None => (Raise FileNotFoundError, logged (CGetsize path) w)
  end.

(** [str] of a pair of integers, as in [f'{img.size}']. *)
Definition repr_size (s : Z * Z) : string :=
  "(" +:+ pretty s.1 +:+ ", " +:+ pretty s.2 +:+ ")".

Definition src_path : string := "assets/images/app_image.png".
Definition out_path : string := "assets/images/app_image_resized.png".

Section Script.

(** The imaging library and the operating system. *)
Context {image : Type}.
Variable size : image -> Z * Z.
Variable decode : list byte -> option image.
Variable resize : image -> Z * Z -> resampling -> option image.
Variable encode : image -> string -> bool -> list byte.
Variable write : string -> list byte -> write_outcome.

(** [Image.open(path)] *)
Definition Image_open (path : string) : M image := fun w =>
  match files w !! path with
  | None => (Raise FileNotFoundError, logged (COpen path) w)
  | Some data =>
      match decode data with
      | None => (Raise UnidentifiedImageError, logged (COpen path) w)
      | Some img => (Ok img, logged (COpen path) w)
      end
  end.

(** [img.resize(size, filter)] *)
Definition Image_resize (img : image) (sz : Z * Z) (filter : resampling) : M image :=
  fun w =>
    match resize img sz filter with
    | Some r => (Ok r, logged (CResize sz filter) w)
    | None => (Raise ValueError, logged (CResize sz filter) w)
    end.

(** [img.save(path, format, optimize=...)] *)
Definition Image_save (img : image) (path format : string) (optimize : bool) : M unit :=
  fun w =>
    let data := encode img format optimize in
    let w1 := logged (CSave path format optimize) w in
    match write path data with
    | Written => (Ok tt, World (<[path := data]> (files w1)) (stdout w1) (calls w1))
    | Denied => (Raise OSError, w1)
    | Partial n =>
        (Raise OSError, World (<[path := take n data]> (files w1)) (stdout w1) (calls w1))
    end.

(** The script, line by line. *)
Definition resize_image : M unit :=
  img ← Image_open src_path;
  print ("Original size: " +:+ repr_size (size img));;
  let '(original_width, original_height) := size img in
  let target_width := 1920 in
  target_height ← lift (calc_target_height target_width original_width original_height);
  print ("New size: " +:+ pretty target_width +:+ "x" +:+ pretty target_height);;
  resized_img ← Image_resize img (target_width, target_height) LANCZOS;
  Image_save resized_img out_path "PNG" true;;
  original_size ← getsize src_path;
  new_size ← getsize out_path;
  mb ← lift (Float.truediv original_size (1024 * 1024));
  print ("Original file size: " +:+ Float.format_1f mb +:+ " MB");;
  mb' ← lift (Float.truediv new_size (1024 * 1024));
  print ("New file size: " +:+ Float.format_1f mb' +:+ " MB");;
  ratio ← lift (Float.truediv (original_size - new_size) original_size);
  percent ← lift (Float.mul_int ratio 100);
  print ("Size reduction: " +:+ Float.format_1f percent +:+ "%").


(** The five lines of a complete run. *)
Definition report (img : image) (target_height : Z) (mb mb' percent : pyfloat) : list string :=
  [ "Original size: " +:+ repr_size (size img);
    "New size: " +:+ pretty 1920 +:+ "x" +:+ pretty target_height;
    "Original file size: " +:+ Float.format_1f mb +:+ " MB";
    "New file size: " +:+ Float.format_1f mb' +:+ " MB";
    "Size reduction: " +:+ Float.format_1f percent +:+ "%" ].

(** The complete runs, as a relation between the world before and
    the world after. *)
Inductive completes (w : world) : world -> Prop :=
| Completes data img target_height resized mb mb' ratio percent :
    let output := encode resized "PNG" true in
    let original_size := Z.of_nat (length data) in
    let new_size := Z.of_nat (length output) in
    files w !! src_path = Some data ->
    decode data = Some img ->
    calc_target_height 1920 (size img).1 (size img).2 = Ok target_height ->
    resize img (1920, target_height) LANCZOS = Some resized ->
    write out_path output = Written ->
    Float.truediv original_size (1024 * 1024) = Ok mb ->
    Float.truediv new_size (1024 * 1024) = Ok mb' ->
    Float.truediv (original_size - new_size) original_size = Ok ratio ->
    Float.mul_int ratio 100 = Ok percent ->
    completes w
      (World (<[out_path := output]> (files w))
             (stdout w ++ report img target_height mb mb' percent)
             (calls w ++ [COpen src_path; CResize (1920, target_height) LANCZOS;
                          CSave out_path "PNG" true;
                          CGetsize src_path; CGetsize out_path])).

(** What the script needs from the imaging library for the size of
    its output: the resampler returns an image of the size it was
    asked for, and an image saved as PNG decodes to one of the same
    size. *)
Definition resize_gives_size : Prop :=
  forall img sz filter resized, resize img sz filter = Some resized -> size resized = sz.

Definition png_keeps_size : Prop :=
  forall img, exists img', decode (encode img "PNG" true) = Some img' /\ size img' = size img.

End Script.

(** ** A small imaging library to run the script on

    An image file is one byte for the width, in units of 32 pixels,
    followed by one byte per row; the decoded image is the file
    itself.  The resampler refuses an empty size, as Pillow does. *)
Module Rows.

Definition image : Type := list byte.

Definition size (img : image) : Z * Z :=
  match img with
  | [] => (0, 0)
  | b :: rows => (32 * Z.of_N (Byte.to_N b), Z.of_nat (length rows))
  end.

Definition decode (data : list byte) : option image := Some data.

Definition resize (img : image) (sz : Z * Z) (filter : resampling) : option image :=
  match Byte.of_N (Z.to_N (sz.1 / 32)) with
  | Some b =>
      if (sz.1 =? 32 * Z.of_N (Byte.to_N b)) && (0 <? sz.1) && (0 <? sz.2)
      then Some (b :: repeat Byte.x00 (Z.to_nat sz.2))
      else None
  | None => None
  end.

Definition encode (img : image) (format : string) (optimize : bool) : list byte := img.

Definition write (path : string) (data : list byte) : write_outcome := Written.

Definition run : M unit := resize_image size decode resize encode write.

(** A world with nothing but the source image, of the given width
    (in units of 32) and height. *)
Definition source (w32 : byte) (h : nat) : world :=
  World {[ src_path := w32 :: repeat Byte.x00 h ]} [] [].

End Rows.

(** A second world: the same source, an older output and an older
    line on the console. *)
Definition Rows_used (w32 : byte) (h : nat) : world :=
  World (<[out_path := [Byte.x01]]> (files (Rows.source w32 h))) ["earlier"] [].

(** A third: no source, only an older output. *)
Definition Rows_stale : world := World {[ out_path := [Byte.x01] ]} [] [].

(** ** Relations between the world before and after *)

Definition respects (R : relation world) {A} (m : M A) : Prop :=
  forall w, R w (m w).2.

(** Files other than the output keep their contents. *)
Definition same_files_but (path : string) (w w' : world) : Prop :=
  forall p, p ≠ path -> files w' !! p = files w !! p.


(** ** Facts about the rounding *)

Section RoundingFacts.

Import Float.

Lemma rne_div_bounds x y :
  0 < y -> 2 * x - y <= 2 * y * rne_div x y <= 2 * x + y.
Proof.
  intros Hy. unfold rne_div.
  pose proof (Z.div_mod x y ltac:(lia)) as Hx.
  pose proof (Z.mod_pos_bound x y Hy) as Hr.
  destruct (Z.ltb_spec (2 * (x mod y)) y);
    [| destruct (Z.ltb_spec y (2 * (x mod y))); [| destruct (Z.even (x / y))]]; nia.
Qed.

Lemma rne_div_floor x y : 0 < y -> x / y <= rne_div x y.
Proof.
  intros Hy. unfold rne_div.
  destruct (2 * (x mod y) <? y); [lia |].
  destruct (y <? 2 * (x mod y)); [lia |].
  destruct (Z.even (x / y)); lia.
Qed.


Lemma ratio_log2_spec n d :
  0 < n -> 0 < d ->
  d * 2 ^ Z.max 0 (ratio_log2 n d) <= n * 2 ^ Z.max 0 (- ratio_log2 n d) /\
  n * 2 ^ Z.max 0 (- (ratio_log2 n d + 1)) < d * 2 ^ Z.max 0 (ratio_log2 n d + 1).
Proof.
  intros Hn Hd. unfold ratio_log2, ge_pow2.
  pose proof (Z.log2_spec n Hn) as [HnL HnU].
  pose proof (Z.log2_spec d Hd) as [HdL HdU].
  pose proof (Z.log2_nonneg n) as Hln. pose proof (Z.log2_nonneg d) as Hld.
  rewrite Z.pow_succ_r in HnU, HdU by lia.
  set (ln := Z.log2 n) in *. set (ld := Z.log2 d) in *.
  set (A := 2 ^ ln) in *. set (B := 2 ^ ld) in *.
  destruct (Z.leb_spec (d * 2 ^ Z.max 0 (ln - ld)) (n * 2 ^ Z.max 0 (- (ln - ld)))) as [Ht | Ht].
  - split; [exact Ht |].
    destruct (Z.le_gt_cases 0 (ln - ld)) as [Hl | Hl].
    + rewrite (Z.max_l 0 (- (ln - ld + 1))), (Z.max_r 0 (ln - ld + 1)) by lia.
      assert (A = B * 2 ^ (ln - ld)) as HA
          by (unfold A, B; rewrite <- Z.pow_add_r by lia; f_equal; lia).
      replace (ln - ld + 1) with (Z.succ (ln - ld)) by lia.
      rewrite Z.pow_succ_r by lia.
      pose proof (Z.pow_pos_nonneg 2 (ln - ld) ltac:(lia) Hl). nia.
    + rewrite (Z.max_r 0 (- (ln - ld + 1))), (Z.max_l 0 (ln - ld + 1)) by lia.
      assert (B = 2 * A * 2 ^ (- (ln - ld + 1))) as HB.
      { unfold A, B. rewrite <- (Z.pow_succ_r 2 ln), <- Z.pow_add_r by lia. f_equal; lia. }
      pose proof (Z.pow_pos_nonneg 2 (- (ln - ld + 1)) ltac:(lia) ltac:(lia)). nia.
  - split; [| replace (ln - ld - 1 + 1) with (ln - ld) by lia; exact Ht].
    destruct (Z.le_gt_cases 1 (ln - ld)) as [Hl | Hl].
    + rewrite (Z.max_l 0 (- (ln - ld - 1))), (Z.max_r 0 (ln - ld - 1)) by lia.
      assert (A = 2 * B * 2 ^ (ln - ld - 1)) as HA.
      { unfold A, B. rewrite <- (Z.pow_succ_r 2 ld), <- Z.pow_add_r by lia. f_equal; lia. }
      pose proof (Z.pow_pos_nonneg 2 (ln - ld - 1) ltac:(lia) ltac:(lia)). nia.
    + rewrite (Z.max_r 0 (- (ln - ld - 1))), (Z.max_l 0 (ln - ld - 1)) by lia.
      assert (2 * B = A * 2 ^ (- (ln - ld - 1))) as HB.
      { unfold A, B. rewrite <- (Z.pow_succ_r 2 ld), <- Z.pow_add_r by lia. f_equal; lia. }
      pose proof (Z.pow_pos_nonneg 2 (- (ln - ld - 1)) ltac:(lia) ltac:(lia)). nia.
Qed.

End RoundingFacts.

Section ExactQuotient.

Import Float.

Lemma pow2_pos k : 0 <= k -> 0 < 2 ^ k.
Proof. intros. apply Z.pow_pos_nonneg; lia. Qed.

Lemma pow2_split c l : 0 <= l <= c -> 2 ^ c = 2 ^ l * 2 ^ (c - l).
Proof. intros. rewrite <- Z.pow_add_r by lia. f_equal; lia. Qed.

(** [2^l <= n / d] rescaled to a common exponent [c]. *)
Lemma ge_pow2_shift n d l c :
  l <= c -> 0 <= c ->
  d * 2 ^ Z.max 0 l <= n * 2 ^ Z.max 0 (- l) ->
  d * 2 ^ c <= n * 2 ^ (c - l).
Proof.
  intros Hl Hc H. destruct (Z.le_gt_cases 0 l) as [H0 | H0].
  - rewrite Z.max_r, Z.max_l, Z.mul_1_r in H by lia.
    rewrite (pow2_split c l) by lia.
    pose proof (pow2_pos (c - l) ltac:(lia)). nia.
  - rewrite Z.max_l, Z.max_r, Z.mul_1_r in H by lia.
    replace (c - l) with (c + - l) by lia.
    rewrite Z.pow_add_r by lia.
    pose proof (pow2_pos c Hc). nia.
Qed.

(** A quotient [a / b] with [a] below 2^53 rounds to a finite float:
    its significand is [rne_div (a * 2^k) b] at the exponent [- k],
    and either it has its 53 bits, or the quotient is in the range of
    gradual underflow. *)
Lemma round_small neg a b :
  0 < a < 2 ^ 53 -> 0 < b ->
  exists k,
    0 <= k <= 1074
    /\ round neg a b = Finite neg (rne_div (a * 2 ^ k) b) (- k)
    /\ (b * 2 ^ 52 <= a * 2 ^ k \/ k = 1074 /\ a * 2 ^ 1022 < b).
Proof.
  intros [Hpos Ha] Hb. unfold round.
  destruct (Z.eqb_spec a 0) as [| _]; [lia |].
  destruct (ratio_log2_spec a b Hpos Hb) as [HL HU].
  set (fl := ratio_log2 a b) in *.
  assert (fl <= 52) as Hfl.
  { destruct (Z.le_gt_cases fl 52) as [| Hgt]; [done | exfalso].
    rewrite Z.max_r, Z.max_l, Z.mul_1_r in HL by lia.
    rewrite (pow2_split fl 53) in HL by lia.
    pose proof (pow2_pos (fl - 53) ltac:(lia)). nia. }
  set (e := Z.max (fl - 52) (-1074)).
  assert (-1074 <= e <= 0) as He by (unfold e; lia).
  unfold significand. rewrite (Z.max_l 0 e), (Z.max_r 0 (- e)), Z.mul_1_r by lia.
  set (k := - e) in *. exists k. split; [lia |].
  pose proof (pow2_pos k ltac:(lia)) as Hk.
  set (m := rne_div (a * 2 ^ k) b).
  pose proof (rne_div_bounds (a * 2 ^ k) b Hb) as [HmL HmU]. fold m in HmL, HmU.
  assert (Z.log2 m + e < 1024) as Hfin.
  { destruct (Z.le_gt_cases m 0) as [Hm0 | Hmpos].
    - pose proof (Z.log2_nonpos m Hm0). lia.
    - assert (Z.log2 m < 54 + k); [| lia].
      apply Z.log2_lt_pow2; [lia |].
      rewrite Z.pow_add_r by lia.
      assert (m <= a * 2 ^ k + 1) by nia. nia. }
  destruct (Z.leb_spec 1024 (Z.log2 m + e)) as [| _]; [lia |].
  split; [f_equal; unfold k; lia |].
  destruct (Z.le_gt_cases (-1074) (fl - 52)) as [Hnorm | Hsub].
  - left. assert (k = 52 - fl) as -> by (unfold k, e; lia).
    apply ge_pow2_shift; [lia .. | exact HL].
  - right. split; [unfold k, e; lia |].
    rewrite Z.max_r, Z.max_l, Z.mul_1_r in HU by lia.
    eapply Z.le_lt_trans; [| exact HU].
    apply Z.mul_le_mono_nonneg_l; [lia |].
    apply Z.pow_le_mono_r; lia.
Qed.

(** With a numerator below 2^53 in absolute value and a divisor that is
    not zero, [/] returns. *)
Lemma truediv_returns a b :
  Z.abs a < 2 ^ 53 -> b ≠ 0 -> exists q, truediv a b = Ok q.
Proof.
  intros Ha Hb. unfold truediv.
  destruct (Z.eqb_spec b 0) as [| _]; [done |].
  destruct (Z.eq_dec a 0) as [-> | Hne]; [by eexists |].
  destruct (round_small (xorb (a <? 0) (b <? 0)) (Z.abs a) (Z.abs b)) as (k & _ & -> & _);
    [lia .. |].
  by eexists.
Qed.

(** The quotient of an integer below 2^53 by a positive integer, as
    a float, has the integer quotient as its integer part: the
    rounding never reaches the next integer. *)
Lemma truediv_to_int a b :
  0 <= a < 2 ^ 53 -> 0 < b ->
  exists q, truediv a b = Ok q /\ to_int q = Ok (a / b).
Proof.
  intros [Ha0 Ha] Hb. unfold truediv.
  destruct (Z.eqb_spec b 0) as [-> | _]; [lia |].
  replace (a <? 0) with false by (symmetry; apply Z.ltb_ge; lia).
  replace (b <? 0) with false by (symmetry; apply Z.ltb_ge; lia).
  rewrite (Z.abs_eq a), (Z.abs_eq b) by lia. cbn [xorb].
  destruct (Z.eq_dec a 0) as [-> | Hne].
  { eexists; split; [reflexivity |]. cbn. rewrite Z.div_0_l by lia. reflexivity. }
  destruct (round_small false a b) as (k & Hk & -> & Hcase); [lia .. |].
  eexists; split; [reflexivity |].
  unfold to_int. rewrite (Z.max_l 0 (- k)), (Z.max_r 0 (- - k)), Z.mul_1_r, Z.opp_involutive by lia.
  pose proof (pow2_pos k ltac:(lia)) as H2k.
  set (m := rne_div (a * 2 ^ k) b).
  pose proof (rne_div_bounds (a * 2 ^ k) b Hb) as [_ HmU]. fold m in HmU.
  pose proof (rne_div_floor (a * 2 ^ k) b Hb) as HmL. fold m in HmL.
  pose proof (Z.div_mod a b ltac:(lia)) as Hab.
  pose proof (Z.mod_pos_bound a b Hb) as Hr.
  pose proof (Z.div_pos a b ltac:(lia) Hb) as Hn.
  set (n := a / b) in *. set (r := a mod b) in *.
  assert (n * 2 ^ k <= m) as Hlow.
  { etransitivity; [| exact HmL]. apply Z.div_le_lower_bound; [lia | nia]. }
  assert (m < (n + 1) * 2 ^ k) as Hup.
  { destruct Hcase as [Hs | [Hk1074 Hab2]].
    - (* 53 bits: b < 2^(k+1) *)
      assert (b < 2 * 2 ^ k) as Hb2 by nia.
      assert (2 * b * m < 2 * b * ((n + 1) * 2 ^ k)) by nia.
      nia.
    - (* gradual underflow: the quotient is below 2^-1022 *)
      assert (n = 0) as Hn0.
      { unfold n. apply Z.div_small. split; [lia |].
        pose proof (pow2_pos 1022 ltac:(lia)). nia. }
      rewrite Hn0, Z.add_0_l, Z.mul_1_l.
      assert (2 ^ k = 2 ^ 1022 * 2 ^ 52) as Hsplit
          by (rewrite Hk1074, <- Z.pow_add_r by lia; reflexivity).
      pose proof (pow2_pos 1022 ltac:(lia)) as H1022.
      assert (2 * b * m < 2 * b * (2 ^ 52 + 1)) as Hm by nia.
      assert (m <= 2 ^ 52) by nia.
      assert (2 ^ 52 < 2 ^ k) by (rewrite Hk1074; apply Z.pow_lt_mono_r; lia).
      lia. }
  f_equal. symmetry.
  apply Z.div_unique with (r := m - n * 2 ^ k); lia.
Qed.


End ExactQuotient.

(** ** The new height, proved *)

Lemma calc_target_height_exact target_width original_width original_height :
  0 <= target_width * original_height < 2 ^ 53 -> 0 < original_width ->
  calc_target_height target_width original_width original_height
  = Ok (target_width * original_height / original_width).
Proof.
  intros Hn Hw. unfold calc_target_height.
  destruct (truediv_to_int _ _ Hn Hw) as (q & -> & Hq). exact Hq.
Qed.

Lemma image_height_fits original_height :
  0 <= original_height <= max_dimension -> 0 <= 1920 * original_height < 2 ^ 53.
Proof. unfold max_dimension. lia. Qed.

(** C1. For an image of positive width, the height computed for the
    target width 1920 is the integer quotient of 1920 * original_height
    by original_width: the floor, which on these non negative numbers
    is also the truncation toward zero.  The quotient goes through a
    float; for the heights an image can have the float is exact enough
    for [int] to return the integer quotient, with no adjustment. *)
Theorem target_height_floor original_width original_height :
  0 < original_width -> 0 <= original_height -> original_height <= max_dimension ->
  calc_target_height 1920 original_width original_height
  = Ok (1920 * original_height / original_width)
  /\ 1920 * original_height / original_width = 1920 * original_height ÷ original_width
  /\ 0 <= 1920 * original_height / original_width.
Proof.
  intros Hw Hh Hmax. split; [| split].
  - apply calc_target_height_exact; [apply image_height_fits |]; lia.
  - symmetry. apply Z.quot_div_nonneg; lia.
  - apply Z.div_pos; lia.
Qed.

Lemma target_height_floor_witness :
  calc_target_height 1920 4000 3000 = Ok (1920 * 3000 / 4000)
  /\ 1920 * 3000 / 4000 = 1920 * 3000 ÷ 4000
  /\ 0 <= 1920 * 3000 / 4000.
Proof. apply (target_height_floor 4000 3000); unfold max_dimension; lia. Defined.

(** The scenario of the specification: 4000 x 3000 gives 1920 x 1440. *)
Example target_height_4000_3000 : calc_target_height 1920 4000 3000 = Ok 1440.
Proof. reflexivity. Qed.

(** Beyond the integers a float holds exactly, the float quotient is
    no longer the integer quotient. *)
Remark target_height_beyond_floats :
  calc_target_height 1920 (1920 * 2 ^ 54 + 1) (2 ^ 54) = Ok 1
  /\ 1920 * 2 ^ 54 / (1920 * 2 ^ 54 + 1) = 0.
Proof. split; reflexivity. Qed.





(** ** The formatting of the sizes, on examples *)

(** 1.25 is a float, and a tie: the even neighbour is printed. *)
Example format_megabytes_tie :
  Float.format_1f <$> (match Float.truediv 1310720 (1024 * 1024) with
                       | Ok x => Some x
                       | Raise _ => None
                       end) = Some "1.2".
Proof. vm_compute. reflexivity. Qed.

Example format_megabytes :
  Float.format_1f <$> (match Float.truediv 2621440 (1024 * 1024) with
                       | Ok x => Some x
                       | Raise _ => None
                       end) = Some "2.5".
Proof. vm_compute. reflexivity. Qed.

(** 247 / 2000 * 100 is the float just below 12.35. *)
Example format_reduction :
  Float.format_1f <$> (match Float.truediv (2000 - 1753) 2000 with
                       | Ok x => match Float.mul_int x 100 with
                                 | Ok y => Some y
                                 | Raise _ => None
                                 end
                       | Raise _ => None
                       end) = Some "12.3".
Proof. vm_compute. reflexivity. Qed.

(** An output one byte larger than the source: minus zero. *)
Example format_reduction_negative :
  Float.format_1f <$> (match Float.truediv (1000000 - 1000001) 1000000 with
                       | Ok x => match Float.mul_int x 100 with
                                 | Ok y => Some y
                                 | Raise _ => None
                                 end
                       | Raise _ => None
                       end) = Some "-0.0".
Proof. vm_compute. reflexivity. Qed.

(** ** Reasoning about computations *)

Lemma paths_differ : out_path ≠ src_path.
Proof. unfold out_path, src_path. discriminate. Qed.

Lemma bind_Ok {A B} (m : M A) (f : A -> M B) (w w' : world) (b : B) :
  (m ≫= f) w = (Ok b, w') ->
  exists a w1, m w = (Ok a, w1) /\ f a w1 = (Ok b, w').
Proof.
  unfold mbind, M_bind. destruct (m w) as [[a | e] w1]; [eauto | discriminate].
Qed.

Lemma bind_step {A B} (m : M A) (f : A -> M B) (w w1 : world) (a : A) :
  m w = (Ok a, w1) -> (m ≫= f) w = f a w1.
Proof. unfold mbind, M_bind. intros ->. reflexivity. Qed.

Lemma bind_raise {A B} (m : M A) (f : A -> M B) (w w1 : world) (e : exn) :
  m w = (Raise e, w1) -> (m ≫= f) w = (Raise e, w1).
Proof. unfold mbind, M_bind. intros ->. reflexivity. Qed.

(** A relation between the world before and the world after that
    every step of a computation keeps, whatever its outcome. *)
Section Respects.

Context (R : relation world) `{!PreOrder R}.

Lemma respects_bind {A B} (m : M A) (f : A -> M B) :
  respects R m -> (forall a, respects R (f a)) -> respects R (m ≫= f).
Proof.
  intros Hm Hf w. specialize (Hm w). unfold mbind, M_bind.
  destruct (m w) as [[a | e] w1]; cbn in *; [| done].
  etransitivity; [exact Hm | apply Hf].
Qed.

Lemma respects_lift {A} (r : result A) : respects R (lift r).
Proof. intros w. reflexivity. Qed.

End Respects.

#[export] Instance same_files_but_preorder path : PreOrder (same_files_but path).
Proof.
  split.
  - intros w p _. reflexivity.
  - intros w1 w2 w3 H12 H23 p Hp. rewrite H23, H12; done.
Qed.

(** The record of calls only grows. *)
Lemma print_frame path line : respects (same_files_but path) (print line).
Proof. intros w p _. reflexivity. Qed.

Lemma getsize_frame path p : respects (same_files_but path) (getsize p).
Proof. intros w q _. unfold getsize. by destruct (files w !! p). Qed.


Section ScriptFacts.

Context {image : Type}.
Variable size : image -> Z * Z.
Variable decode : list byte -> option image.
Variable resize : image -> Z * Z -> resampling -> option image.
Variable encode : image -> string -> bool -> list byte.
Variable write : string -> list byte -> write_outcome.

Abbreviation run := (resize_image size decode resize encode write).
Abbreviation completes := (completes size decode resize encode write).
Abbreviation report := (report size).
Abbreviation resize_gives_size := (resize_gives_size size resize).
Abbreviation png_keeps_size := (png_keeps_size size decode encode).

Ltac unfold_script :=
  unfold resize_image, mbind, M_bind, Image_open, print, lift,
    Image_resize, Image_save, getsize, logged;
  cbn [files stdout calls fst snd].

Lemma run_completes w w' : run w = (Ok tt, w') <-> completes w w'.
Proof.
  split.
  - unfold_script.
    destruct (files w !! src_path) as [data |] eqn:Hsrc; [| discriminate].
    destruct (decode data) as [img |] eqn:Hdec; [| discriminate].
    destruct (size img) as [ow oh] eqn:Hsize.
    destruct (calc_target_height 1920 ow oh) as [th |] eqn:Hth; [| discriminate].
    destruct (resize img (1920, th) LANCZOS) as [r |] eqn:Hres; [| discriminate].
    destruct (write out_path (encode r "PNG" true)) eqn:Hwr; [| discriminate ..].
    cbn [files stdout calls].
    rewrite lookup_insert_ne, Hsrc by apply paths_differ.
    cbn [files stdout calls]. rewrite lookup_insert_eq.
    destruct (Float.truediv (Z.of_nat (length data)) (1024 * 1024)) as [mb |] eqn:Hmb;
      [| discriminate].
    destruct (Float.truediv (Z.of_nat (length (encode r "PNG" true))) (1024 * 1024))
      as [mb' |] eqn:Hmb'; [| discriminate].
    destruct (Float.truediv _ (Z.of_nat (length data))) as [ratio |] eqn:Hratio;
      [| discriminate].
    destruct (Float.mul_int ratio 100) as [percent |] eqn:Hpct; [| discriminate].
    intros [= <-].
    rewrite <- !(assoc_L (++)). cbn [app]. rewrite <- Hsize.
    eapply (Completes size decode resize encode write w data img th r mb mb' ratio percent);
    try eassumption.
    by rewrite Hsize.
  - intros [data img th r mb mb' ratio percent output osz nsz
              Hsrc Hdec Hth Hres Hwr Hmb Hmb' Hratio Hpct].
    unfold_script. rewrite Hsrc, Hdec.
    destruct (size img) as [ow oh] eqn:Hsize. cbn [fst snd] in Hth.
    rewrite Hth, Hres. fold output. rewrite Hwr.
    cbn [files stdout calls].
    rewrite lookup_insert_ne, Hsrc by apply paths_differ.
    cbn [files stdout calls]. rewrite lookup_insert_eq.
    fold osz nsz. rewrite Hmb, Hmb', Hratio, Hpct.
    cbn [files stdout calls]. rewrite <- !(assoc_L (++)), <- Hsize. reflexivity.
Qed.

(** *** Which files a run touches *)

Lemma Image_open_frame path p : respects (same_files_but path) (Image_open decode p).
Proof.
  intros w q _. unfold Image_open.
  destruct (files w !! p) as [data |]; [destruct (decode data) |]; reflexivity.
Qed.

Lemma Image_resize_frame path img sz filter :
  respects (same_files_but path) (Image_resize resize img sz filter).
Proof. intros w q _. unfold Image_resize. by destruct (resize img sz filter). Qed.

Lemma Image_save_frame path img format optimize :
  respects (same_files_but path) (Image_save encode write img path format optimize).
Proof.
  intros w q Hq. unfold Image_save.
  destruct (write path _); cbn; [| done |]; by rewrite lookup_insert_ne.
Qed.

Lemma run_frame : respects (same_files_but out_path) run.
Proof.
  unfold resize_image.
  apply respects_bind; [apply _ | apply Image_open_frame | intros img].
  apply respects_bind; [apply _ | apply print_frame | intros _].
  destruct (size img) as [original_width original_height].
  apply respects_bind; [apply _ | apply respects_lift, _ | intros target_height].
  apply respects_bind; [apply _ | apply print_frame | intros _].
  apply respects_bind; [apply _ | apply Image_resize_frame | intros resized_img].
  apply respects_bind; [apply _ | apply Image_save_frame | intros _].
  apply respects_bind; [apply _ | apply getsize_frame | intros original_size].
  apply respects_bind; [apply _ | apply getsize_frame | intros new_size].
  apply respects_bind; [apply _ | apply respects_lift, _ | intros mb].
  apply respects_bind; [apply _ | apply print_frame | intros _].
  apply respects_bind; [apply _ | apply respects_lift, _ | intros mb'].
  apply respects_bind; [apply _ | apply print_frame | intros _].
  apply respects_bind; [apply _ | apply respects_lift, _ | intros ratio].
  apply respects_bind; [apply _ | apply respects_lift, _ | intros percent].
  apply print_frame.
Qed.

(** C8. Whatever the outcome of a run, the source file is what it
    was, and so is every file other than the one at the output
    path. *)
Theorem source_never_mutated (w : world) :
  files (run w).2 !! src_path = files w !! src_path
  /\ forall p, p ≠ out_path -> files (run w).2 !! p = files w !! p.
Proof.
  pose proof (run_frame w) as H. split; [| exact H].
  apply H. intros Heq. by apply paths_differ.
Qed.

(** C2. Without a file at the source path the run ends in
    FileNotFoundError at the first line: the files are all as they
    were, the output among them, nothing has been printed and the
    only call made is the attempt to open the source. *)
Theorem missing_source_fails (w : world) :
  files w !! src_path = None ->
  exists w',
    run w = (Raise FileNotFoundError, w')
    /\ files w' = files w
    /\ files w' !! out_path = files w !! out_path
    /\ stdout w' = stdout w
    /\ calls w' = calls w ++ [COpen src_path].
Proof.
  intros Hsrc. eexists. unfold_script. rewrite Hsrc. cbn [files stdout calls].
  repeat split.
Qed.

(** *** The calls a run makes *)

Ltac run_to_size Hsrc Hdec Hsize Hth :=
  unfold_script; rewrite Hsrc, Hdec, Hsize; cbn [fst snd] in Hth; rewrite Hth.

Lemma run_calls_resize w data img target_height :
  files w !! src_path = Some data -> decode data = Some img ->
  calc_target_height 1920 (size img).1 (size img).2 = Ok target_height ->
  CResize (1920, target_height) LANCZOS ∈ calls (run w).2.
Proof.
  intros Hsrc Hdec Hth. destruct (size img) as [ow oh] eqn:Hsize.
  run_to_size Hsrc Hdec Hsize Hth.
  repeat (case_match; cbn [fst snd files stdout calls]); set_solver.
Qed.

Lemma run_calls_save w data img target_height resized :
  files w !! src_path = Some data -> decode data = Some img ->
  calc_target_height 1920 (size img).1 (size img).2 = Ok target_height ->
  resize img (1920, target_height) LANCZOS = Some resized ->
  CSave out_path "PNG" true ∈ calls (run w).2.
Proof.
  intros Hsrc Hdec Hth Hres. destruct (size img) as [ow oh] eqn:Hsize.
  run_to_size Hsrc Hdec Hsize Hth. rewrite Hres.
  repeat (case_match; cbn [fst snd files stdout calls]); set_solver.
Qed.

Lemma run_zero_width w data img :
  files w !! src_path = Some data -> decode data = Some img ->
  (size img).1 = 0 ->
  run w = (Raise ZeroDivisionError,
           World (files w) (stdout w ++ ["Original size: " +:+ repr_size (size img)])
                 (calls w ++ [COpen src_path])).
Proof.
  intros Hsrc Hdec Hw. destruct (size img) as [ow oh] eqn:Hsize.
  cbn in Hw. subst ow.
  unfold_script. rewrite Hsrc, Hdec, Hsize. reflexivity.
Qed.

Lemma run_saved w data img target_height resized :
  files w !! src_path = Some data -> decode data = Some img ->
  calc_target_height 1920 (size img).1 (size img).2 = Ok target_height ->
  resize img (1920, target_height) LANCZOS = Some resized ->
  write out_path (encode resized "PNG" true) = Written ->
  files (run w).2 !! out_path = Some (encode resized "PNG" true).
Proof.
  intros Hsrc Hdec Hth Hres Hwr. destruct (size img) as [ow oh] eqn:Hsize.
  run_to_size Hsrc Hdec Hsize Hth. rewrite Hres, Hwr.
  cbn [fst snd files stdout calls].
  rewrite lookup_insert_ne, Hsrc by apply paths_differ.
  cbn [fst snd files stdout calls]. rewrite lookup_insert_eq.
  repeat (case_match; cbn [fst snd files stdout calls]); apply lookup_insert_eq.
Qed.

(** C7. With a width of zero the division of line 14 raises
    ZeroDivisionError, and the run ends there: one line printed, no
    resize, no file written.  With a positive width the computation
    of the height never raises it. *)
Theorem zero_width_division :
  (forall target_width original_height,
      calc_target_height target_width 0 original_height = Raise ZeroDivisionError)
  /\ (forall target_width original_width original_height,
        0 < original_width ->
        calc_target_height target_width original_width original_height
        ≠ Raise ZeroDivisionError)
  /\ (forall w data img,
        files w !! src_path = Some data -> decode data = Some img ->
        (size img).1 = 0 ->
        exists w',
          run w = (Raise ZeroDivisionError, w')
          /\ files w' = files w
          /\ calls w' = calls w ++ [COpen src_path]).
Proof.
  split; [| split].
  - intros. reflexivity.
  - intros tw ow oh Hw. unfold calc_target_height, Float.truediv.
    destruct (Z.eqb_spec ow 0) as [| _]; [lia |].
    destruct (Float.round _ _ _); cbn; discriminate.
  - intros w data img Hsrc Hdec Hw. eexists.
    split; [by apply (run_zero_width w data img) |]. split; reflexivity.
Qed.

(** C5. When the source is 1920 wide, the computed height is the
    source's own height: the resampler is asked for the source's size,
    and the result is still encoded and written to the output path. *)
Theorem same_width_same_size (w : world) data img original_height :
  files w !! src_path = Some data -> decode data = Some img ->
  size img = (1920, original_height) ->
  0 <= original_height <= max_dimension ->
  calc_target_height 1920 1920 original_height = Ok original_height
  /\ CResize (size img) LANCZOS ∈ calls (run w).2
  /\ forall resized,
      resize img (size img) LANCZOS = Some resized ->
      CSave out_path "PNG" true ∈ calls (run w).2
      /\ (write out_path (encode resized "PNG" true) = Written ->
          files (run w).2 !! out_path = Some (encode resized "PNG" true)).
Proof.
  intros Hsrc Hdec Hsize Hh.
  assert (calc_target_height 1920 1920 original_height = Ok original_height) as Hth.
  { rewrite calc_target_height_exact by (try apply image_height_fits; lia).
    f_equal. rewrite Z.mul_comm. apply Z.div_mul. lia. }
  assert (calc_target_height 1920 (size img).1 (size img).2 = Ok original_height) as Hth'
      by (by rewrite Hsize).
  split; [exact Hth |]. rewrite Hsize. split.
  - by apply (run_calls_resize w data img).
  - intros resized Hres. split.
    + by apply (run_calls_save w data img original_height resized).
    + intros Hwr. by apply (run_saved w data img original_height resized).
Qed.

(** C10. An image so wide that 1920 * original_height is below
    original_width gets the height 0, and the resampler is called
    with the size 1920 x 0: nothing stands between the division and
    the call. *)
Theorem zero_height_resize (w : world) data img original_width original_height :
  files w !! src_path = Some data -> decode data = Some img ->
  size img = (original_width, original_height) ->
  0 < original_width -> 0 <= original_height <= max_dimension ->
  1920 * original_height < original_width ->
  calc_target_height 1920 original_width original_height = Ok 0
  /\ CResize (1920, 0) LANCZOS ∈ calls (run w).2.
Proof.
  intros Hsrc Hdec Hsize Hw Hh Hsmall.
  assert (calc_target_height 1920 original_width original_height = Ok 0) as Hth.
  { rewrite calc_target_height_exact by (try apply image_height_fits; lia).
    f_equal. apply Z.div_small. lia. }
  split; [exact Hth |].
  apply (run_calls_resize w data img); [done .. |]. by rewrite Hsize.
Qed.

(** *** Complete runs *)

(** C4. After a complete run the file at the output path decodes to
    an image of the size 1920 x target_height, the height being the
    one computed from the source image. *)
Theorem output_round_trip (w w' : world) :
  resize_gives_size -> png_keeps_size ->
  run w = (Ok tt, w') ->
  exists data img target_height output img',
    files w !! src_path = Some data /\ decode data = Some img
    /\ calc_target_height 1920 (size img).1 (size img).2 = Ok target_height
    /\ files w' !! out_path = Some output
    /\ decode output = Some img'
    /\ size img' = (1920, target_height).
Proof.
  intros Hresize Hpng Hrun. apply run_completes in Hrun.
  destruct Hrun as [data img th r mb mb' ratio percent output osz nsz
                      Hsrc Hdec Hth Hres Hwr Hmb Hmb' Hratio Hpct].
  destruct (Hpng r) as (img' & Himg' & Hsz).
  exists data, img, th, output, img'. cbn [files].
  rewrite lookup_insert_eq. repeat split; try done.
  rewrite Hsz. by eapply Hresize.
Qed.

(** C6. Two runs from worlds with the same source file: if one
    completes so does the other, and the two output files are the
    same bytes, whatever else the two worlds held. *)
Theorem same_input_same_output (w1 w2 w1' : world) :
  files w1 !! src_path = files w2 !! src_path ->
  run w1 = (Ok tt, w1') ->
  exists w2',
    run w2 = (Ok tt, w2')
    /\ files w2' !! out_path = files w1' !! out_path
    /\ is_Some (files w1' !! out_path).
Proof.
  intros Hsame Hrun. apply run_completes in Hrun.
  destruct Hrun as [data img th r mb mb' ratio percent output osz nsz
                      Hsrc Hdec Hth Hres Hwr Hmb Hmb' Hratio Hpct].
  rewrite Hsame in Hsrc.
  eexists. split.
  - apply run_completes.
    by apply (Completes size decode resize encode write w2 data img th r mb mb' ratio percent).
  - cbn [files]. rewrite !lookup_insert_eq. eauto.
Qed.

(** Running the script again on what a complete run left behind
    completes too and leaves the very same files. *)
Lemma rerun_same_files (w w' : world) :
  run w = (Ok tt, w') ->
  exists w'', run w' = (Ok tt, w'') /\ files w'' = files w'.
Proof.
  intros Hrun. apply run_completes in Hrun.
  destruct Hrun as [data img th r mb mb' ratio percent output osz nsz
                      Hsrc Hdec Hth Hres Hwr Hmb Hmb' Hratio Hpct].
  eexists. split.
  - apply run_completes.
    apply (Completes size decode resize encode write _ data img th r mb mb' ratio percent);
      try done.
    cbn [files]. by rewrite lookup_insert_ne by apply paths_differ.
  - cbn [files]. apply insert_insert_eq.
Qed.

(** A run completes when the source decodes to an image of positive
    width, the resampler and the write succeed, the source is not
    empty, and both files are below 2^53 bytes. *)
Lemma run_completes_when (w : world) data img resized :
  files w !! src_path = Some data -> decode data = Some img ->
  0 < (size img).1 -> 0 <= (size img).2 <= max_dimension ->
  resize img (1920, 1920 * (size img).2 / (size img).1) LANCZOS = Some resized ->
  write out_path (encode resized "PNG" true) = Written ->
  0 < Z.of_nat (length data) < 2 ^ 53 ->
  Z.of_nat (length (encode resized "PNG" true)) < 2 ^ 53 ->
  exists w', run w = (Ok tt, w').
Proof.
  intros Hsrc Hdec Hw Hh Hres Hwr Hdata Hout.
  set (osz := Z.of_nat (length data)) in *.
  set (nsz := Z.of_nat (length (encode resized "PNG" true))) in *.
  assert (0 <= nsz) as Hnsz by (unfold nsz; lia).
  destruct (truediv_returns osz (1024 * 1024)) as [mb Hmb]; [lia .. |].
  destruct (truediv_returns nsz (1024 * 1024)) as [mb' Hmb']; [lia .. |].
  destruct (truediv_returns (osz - nsz) osz) as [ratio Hratio]; [lia .. |].
  assert (exists percent, Float.mul_int ratio 100 = Ok percent) as [percent Hpct]
      by (by eexists).
  eexists. apply run_completes.
  assert (calc_target_height 1920 (size img).1 (size img).2
          = Ok (1920 * (size img).2 / (size img).1)) as Hth
      by (apply calc_target_height_exact; [apply image_height_fits |]; lia).
  by apply (Completes size decode resize encode write w data img
              (1920 * (size img).2 / (size img).1) resized mb mb' ratio percent).
Qed.


End ScriptFacts.

(** ** The script on the small imaging library *)

Lemma Rows_resize_gives_size : resize_gives_size Rows.size Rows.resize.
Proof.
  intros img [tw th] filter resized. unfold Rows.resize. cbn [fst snd].
  destruct (Byte.of_N (Z.to_N (tw / 32))) as [b |]; [| discriminate].
  destruct (Z.eqb_spec tw (32 * Z.of_N (Byte.to_N b))) as [Hw |]; [| discriminate].
  destruct (Z.ltb_spec 0 tw); [| discriminate].
  destruct (Z.ltb_spec 0 th); [| discriminate].
  intros [= <-]. cbn [Rows.size]. rewrite repeat_length, Z2Nat.id by lia. by rewrite Hw.
Qed.

Lemma Rows_png_keeps_size : png_keeps_size Rows.size Rows.decode Rows.encode.
Proof. intros img. by exists img. Qed.

Lemma missing_source_fails_witness :
  exists w',
    Rows.run Rows_stale = (Raise FileNotFoundError, w')
    /\ files w' = files Rows_stale
    /\ files w' !! out_path = files Rows_stale !! out_path
    /\ stdout w' = stdout Rows_stale
    /\ calls w' = calls Rows_stale ++ [COpen src_path].
Proof.
  refine (missing_source_fails Rows.size Rows.decode Rows.resize Rows.encode Rows.write
            Rows_stale _).
  vm_compute. reflexivity.
Defined.

Lemma output_round_trip_witness :
  exists data img target_height output img',
    files (Rows.source Byte.x78 2) !! src_path = Some data /\ Rows.decode data = Some img
    /\ calc_target_height 1920 (Rows.size img).1 (Rows.size img).2 = Ok target_height
    /\ files (Rows.run (Rows.source Byte.x78 2)).2 !! out_path = Some output
    /\ Rows.decode output = Some img'
    /\ Rows.size img' = (1920, target_height).
Proof.
  refine (output_round_trip Rows.size Rows.decode Rows.resize Rows.encode Rows.write
            (Rows.source Byte.x78 2) _ Rows_resize_gives_size Rows_png_keeps_size _).
  vm_compute. reflexivity.
Defined.

Lemma same_width_same_size_witness :
  calc_target_height 1920 1920 3 = Ok 3
  /\ CResize (1920, 3) LANCZOS ∈ calls (Rows.run (Rows.source Byte.x3c 3)).2.
Proof.
  destruct (same_width_same_size Rows.size Rows.decode Rows.resize Rows.encode Rows.write
              (Rows.source Byte.x3c 3) (Byte.x3c :: repeat Byte.x00 3)
              (Byte.x3c :: repeat Byte.x00 3) 3) as (H1 & H2 & _).
  - vm_compute. reflexivity.
  - reflexivity.
  - reflexivity.
  - unfold max_dimension. lia.
  - split; [exact H1 | exact H2].
Defined.

Lemma same_input_same_output_witness :
  exists w2',
    Rows.run (Rows_used Byte.x78 2) = (Ok tt, w2')
    /\ files w2' !! out_path = files (Rows.run (Rows.source Byte.x78 2)).2 !! out_path
    /\ is_Some (files (Rows.run (Rows.source Byte.x78 2)).2 !! out_path).
Proof.
  refine (same_input_same_output Rows.size Rows.decode Rows.resize Rows.encode Rows.write
            (Rows.source Byte.x78 2) (Rows_used Byte.x78 2) _ _ _).
  - vm_compute. reflexivity.
  - vm_compute. reflexivity.
Defined.

Lemma zero_width_division_witness :
  calc_target_height 1920 0 1 = Raise ZeroDivisionError
  /\ calc_target_height 1920 4000 3000 ≠ Raise ZeroDivisionError
  /\ exists w',
      Rows.run (Rows.source Byte.x00 1) = (Raise ZeroDivisionError, w')
      /\ files w' = files (Rows.source Byte.x00 1)
      /\ calls w' = calls (Rows.source Byte.x00 1) ++ [COpen src_path].
Proof.
  destruct (zero_width_division Rows.size Rows.decode Rows.resize Rows.encode Rows.write)
    as (H0 & Hpos & Hrun).
  split; [apply H0 |]. split; [apply Hpos; lia |].
  refine (Hrun (Rows.source Byte.x00 1) [Byte.x00; Byte.x00] [Byte.x00; Byte.x00] _ _ _).
  - vm_compute. reflexivity.
  - reflexivity.
  - reflexivity.
Defined.

Lemma source_never_mutated_witness :
  files (Rows.run (Rows_used Byte.x78 2)).2 !! src_path = files (Rows_used Byte.x78 2) !! src_path
  /\ files (Rows.run (Rows_used Byte.x78 2)).2 !! "README.md"
     = files (Rows_used Byte.x78 2) !! "README.md".
Proof.
  destruct (source_never_mutated Rows.size Rows.decode Rows.resize Rows.encode Rows.write
              (Rows_used Byte.x78 2)) as [Hsrc Hother].
  split; [exact Hsrc |]. apply Hother. unfold out_path. discriminate.
Defined.


(** The console after the run on a 3840 x 2 source. *)
Example console_3840_2 :
  stdout (Rows.run (Rows.source Byte.x78 2)).2
  = [ "Original size: (3840, 2)"; "New size: 1920x1"; "Original file size: 0.0 MB";
      "New file size: 0.0 MB"; "Size reduction: 33.3%" ].
Proof. vm_compute. reflexivity. Qed.

Lemma zero_height_resize_witness :
  calc_target_height 1920 4000 1 = Ok 0
  /\ CResize (1920, 0) LANCZOS ∈ calls (Rows.run (Rows.source Byte.x7d 1)).2.
Proof.
  refine (zero_height_resize Rows.size Rows.decode Rows.resize Rows.encode Rows.write
            (Rows.source Byte.x7d 1) [Byte.x7d; Byte.x00] [Byte.x7d; Byte.x00] 4000 1
            _ _ _ _ _ _).
  - vm_compute. reflexivity.
  - reflexivity.
  - reflexivity.
  - lia.
  - unfold max_dimension. lia.
  - lia.
Defined.

(** ** More about the new height (lines 12 to 14) *)



(** A higher source of the same or a smaller width never gets a
    smaller new height. *)
Theorem target_height_monotone w h w' h' :
  0 < w' <= w -> 0 <= h <= h' -> h' <= max_dimension ->
  exists th th',
    calc_target_height 1920 w h = Ok th
    /\ calc_target_height 1920 w' h' = Ok th'
    /\ th <= th'.
Proof.
  intros Hw Hh Hmax. do 2 eexists. split; [| split].
  - apply calc_target_height_exact; [apply image_height_fits |]; lia.
  - apply calc_target_height_exact; [apply image_height_fits |]; lia.
  - etransitivity.
    + apply (Z.div_le_mono _ (1920 * h') w); lia.
    + apply Z.div_le_compat_l; lia.
Qed.

Lemma target_height_monotone_witness :
  exists th th',
    calc_target_height 1920 4000 3000 = Ok th
    /\ calc_target_height 1920 3840 3100 = Ok th'
    /\ th <= th'.
Proof. apply (target_height_monotone 4000 3000 3840 3100); unfold max_dimension; lia. Defined.

(** A source narrower than 1920 is enlarged and a wider one is
    reduced: the new height is at least, respectively at most, the
    height of the source. *)
Theorem target_height_direction original_width original_height :
  0 < original_width -> 0 <= original_height <= max_dimension ->
  exists target_height,
    calc_target_height 1920 original_width original_height = Ok target_height
    /\ (original_width <= 1920 -> original_height <= target_height)
    /\ (1920 <= original_width -> target_height <= original_height).
Proof.
  intros Hw Hh. eexists. split; [| split].
  - apply calc_target_height_exact; [apply image_height_fits |]; lia.
  - intros Hle. apply Z.div_le_lower_bound; nia.
  - intros Hge. apply Z.div_le_upper_bound; nia.
Qed.

Lemma target_height_direction_witness :
  exists target_height,
    calc_target_height 1920 640 480 = Ok target_height
    /\ (640 <= 1920 -> 480 <= target_height)
    /\ (1920 <= 640 -> target_height <= 480).
Proof. apply (target_height_direction 640 480); unfold max_dimension; lia. Defined.

(** Only the proportions of the source count: a source [k] times as
    wide and as high gets the same new height. *)
Theorem target_height_scale_invariant k original_width original_height :
  0 < k -> 0 < original_width -> 0 <= original_height ->
  k * original_height <= max_dimension ->
  calc_target_height 1920 (k * original_width) (k * original_height)
  = calc_target_height 1920 original_width original_height.
Proof.
  intros Hk Hw Hh Hmax.
  rewrite !calc_target_height_exact by (try apply image_height_fits; nia).
  f_equal. replace (1920 * (k * original_height)) with (k * (1920 * original_height)) by lia.
  apply Z.div_mul_cancel_l; lia.
Qed.

Lemma target_height_scale_invariant_witness :
  calc_target_height 1920 (2 * 4000) (2 * 3000) = calc_target_height 1920 4000 3000.
Proof.
  apply (target_height_scale_invariant 2 4000 3000); unfold max_dimension; lia.
Defined.

(** The new height times the source width falls short of
    1920 * original_height by less than the source width, and by
    nothing when the source width divides that product. *)
Theorem target_height_remainder original_width original_height :
  0 < original_width -> 0 <= original_height <= max_dimension ->
  exists target_height,
    calc_target_height 1920 original_width original_height = Ok target_height
    /\ 1920 * original_height - original_width < target_height * original_width
       <= 1920 * original_height
    /\ ((original_width | 1920 * original_height) ->
        target_height * original_width = 1920 * original_height).
Proof.
  intros Hw Hh. eexists. split; [| split].
  - apply calc_target_height_exact; [apply image_height_fits |]; lia.
  - pose proof (Z.div_mod (1920 * original_height) original_width ltac:(lia)).
    pose proof (Z.mod_pos_bound (1920 * original_height) original_width Hw). lia.
  - intros [c Hc]. rewrite Hc, Z.div_mul by lia. reflexivity.
Qed.

Lemma target_height_remainder_witness :
  exists target_height,
    calc_target_height 1920 4000 3000 = Ok target_height
    /\ 1920 * 3000 - 4000 < target_height * 4000 <= 1920 * 3000
    /\ ((4000 | 1920 * 3000) -> target_height * 4000 = 1920 * 3000).
Proof. apply (target_height_remainder 4000 3000); unfold max_dimension; lia. Defined.

(** ** The runs that do not complete (lines 8 to 30) *)

Section Failures.

Context {image : Type}.
Variable size : image -> Z * Z.
Variable decode : list byte -> option image.
Variable resize : image -> Z * Z -> resampling -> option image.
Variable encode : image -> string -> bool -> list byte.
Variable write : string -> list byte -> write_outcome.

Abbreviation run := (resize_image size decode resize encode write).

Ltac unfold_script :=
  unfold resize_image, mbind, M_bind, Image_open, print, lift,
    Image_resize, Image_save, getsize, logged;
  cbn [files stdout calls fst snd].

Ltac all_cases := repeat (case_match; cbn [fst snd files stdout calls] in *; simplify_eq).



(** When the write of the output fails, the run ends in the save: the
    output path holds what was written before the error, or is as it
    was when nothing was; the file sizes are neither read nor
    printed. *)
Theorem failed_write_fails (w : world) data img target_height resized :
  files w !! src_path = Some data -> decode data = Some img ->
  calc_target_height 1920 (size img).1 (size img).2 = Ok target_height ->
  resize img (1920, target_height) LANCZOS = Some resized ->
  write out_path (encode resized "PNG" true) ≠ Written ->
  exists w',
    run w = (Raise OSError, w')
    /\ stdout w' = stdout w ++ [ "Original size: " +:+ repr_size (size img);
                                 "New size: 1920x" +:+ pretty target_height ]
    /\ calls w' = calls w ++ [COpen src_path; CResize (1920, target_height) LANCZOS;
                              CSave out_path "PNG" true]
    /\ match write out_path (encode resized "PNG" true) with
       | Partial n => files w' = <[out_path := take n (encode resized "PNG" true)]> (files w)
       | _ => files w' = files w
       end.
Proof.
  intros Hsrc Hdec Hth Hres Hwr. destruct (size img) as [ow oh] eqn:Hsize.
  cbn [fst snd] in Hth. unfold_script. rewrite Hsrc, Hdec, Hsize, Hth, Hres.
  destruct (write out_path (encode resized "PNG" true)) as [| | n]; [done | |];
    eexists; (split; [reflexivity |]); cbn [files stdout calls];
    by rewrite <- !(assoc_L (++)).
Qed.

(** Whatever the run, the files after it are the files before it, or
    differ from them at the output path alone, where the encoding of the
    resampled source, or a prefix of it, has been written. *)
Theorem files_change_only_by_save (w : world) :
  files (run w).2 = files w
  \/ exists data img target_height resized n,
      files w !! src_path = Some data /\ decode data = Some img
      /\ calc_target_height 1920 (size img).1 (size img).2 = Ok target_height
      /\ resize img (1920, target_height) LANCZOS = Some resized
      /\ files (run w).2 = <[out_path := take n (encode resized "PNG" true)]> (files w).
Proof.
  unfold_script.
  destruct (files w !! src_path) as [data |] eqn:Hsrc; [| by left].
  destruct (decode data) as [img |] eqn:Hdec; [| by left].
  destruct (size img) as [ow oh] eqn:Hsize.
  destruct (calc_target_height 1920 ow oh) as [th |] eqn:Hth; [| by left].
  destruct (resize img (1920, th) LANCZOS) as [r |] eqn:Hres; [| by left].
  destruct (write out_path (encode r "PNG" true)) as [| | n] eqn:Hwr; [| by left |].
  - right. exists data, img, th, r, (length (encode r "PNG" true)).
    rewrite Hsize, firstn_all. repeat split; try done. all_cases; done.
  - right. exists data, img, th, r, n. rewrite Hsize. repeat split; done.
Qed.


(** The console only grows, by at most five lines, and the fifth is
    printed by the complete runs and by no other. *)
Theorem console_grows (w : world) :
  exists lines,
    stdout (run w).2 = stdout w ++ lines
    /\ (length lines <= 5)%nat
    /\ ((run w).1 = Ok tt <-> length lines = 5%nat).
Proof.
  unfold_script.
  assert (forall (r : result unit) l lines,
            l = stdout w ++ lines -> (length lines <= 5)%nat ->
            (r = Ok tt <-> length lines = 5%nat) ->
            exists lines, l = stdout w ++ lines /\ (length lines <= 5)%nat
                          /\ (r = Ok tt <-> length lines = 5%nat)) as Hex
      by (intros r l lines -> ? ?; by exists lines).
  all_cases;
    (eapply Hex;
     [ rewrite <- ?(assoc_L (++)); first [reflexivity | symmetry; apply app_nil_r]
     | cbn; lia
     | cbn; split; [discriminate || done | discriminate || done] ]).
Qed.


End Failures.

(** ** The printed reduction (line 30) *)

Section Reduction.

Import Float.

(** [n / d < 2^l] rescaled to a common exponent [c]. *)
Lemma lt_pow2_shift n d l c :
  l <= c -> 0 <= c -> 0 <= n ->
  n * 2 ^ Z.max 0 (- l) < d * 2 ^ Z.max 0 l ->
  n * 2 ^ (c - l) < d * 2 ^ c.
Proof.
  intros Hl Hc Hn H. destruct (Z.le_gt_cases 0 l) as [H0 | H0].
  - rewrite Z.max_l, Z.max_r, Z.mul_1_r in H by lia.
    rewrite (pow2_split c l) by lia.
    pose proof (pow2_pos (c - l) ltac:(lia)). nia.
  - rewrite Z.max_r, Z.max_l, Z.mul_1_r in H by lia.
    replace (c - l) with (c + - l) by lia.
    rewrite Z.pow_add_r by lia.
    pose proof (pow2_pos c Hc). nia.
Qed.

(** A quotient below 2^53 rounds to a finite float with a significand
    of at most 53 bits at an exponent that is not positive. *)
Lemma round_fraction neg a b :
  0 < a -> 0 < b -> a < b * 2 ^ 53 ->
  exists k,
    0 <= k <= 1074
    /\ round neg a b = Finite neg (rne_div (a * 2 ^ k) b) (- k)
    /\ a * 2 ^ k < b * 2 ^ 53
    /\ (b * 2 ^ 52 <= a * 2 ^ k \/ k = 1074).
Proof.
  intros Hpos Hb Ha. unfold round.
  destruct (Z.eqb_spec a 0) as [| _]; [lia |].
  destruct (ratio_log2_spec a b Hpos Hb) as [HL HU].
  set (fl := ratio_log2 a b) in *.
  assert (fl <= 52) as Hfl.
  { destruct (Z.le_gt_cases fl 52) as [| Hgt]; [done | exfalso].
    rewrite Z.max_r, Z.max_l, Z.mul_1_r in HL by lia.
    rewrite (pow2_split fl 53) in HL by lia.
    pose proof (pow2_pos (fl - 53) ltac:(lia)).
    pose proof (pow2_pos 53 ltac:(lia)). nia. }
  pose proof (lt_pow2_shift a b (fl + 1) 53 ltac:(lia) ltac:(lia) ltac:(lia) HU) as HU'.
  replace (53 - (fl + 1)) with (52 - fl) in HU' by lia.
  set (e := Z.max (fl - 52) (-1074)).
  assert (-1074 <= e <= 0) as He by (unfold e; lia).
  unfold significand. rewrite (Z.max_l 0 e), (Z.max_r 0 (- e)), Z.mul_1_r by lia.
  set (k := - e) in *. exists k. split; [lia |].
  pose proof (pow2_pos k ltac:(lia)) as Hk.
  assert (a * 2 ^ k < b * 2 ^ 53) as Hlt.
  { eapply Z.le_lt_trans; [| exact HU'].
    apply Z.mul_le_mono_nonneg_l; [lia |].
    apply Z.pow_le_mono_r; unfold k, e; lia. }
  set (m := rne_div (a * 2 ^ k) b).
  pose proof (rne_div_bounds (a * 2 ^ k) b Hb) as [HmL HmU]. fold m in HmL, HmU.
  assert (Z.log2 m + e < 1024) as Hfin.
  { destruct (Z.le_gt_cases m 0) as [Hm0 | Hmpos].
    - pose proof (Z.log2_nonpos m Hm0). lia.
    - assert (Z.log2 m < 54); [| lia].
      apply Z.log2_lt_pow2; [lia |].
      assert (m <= 2 ^ 53) by nia. lia. }
  destruct (Z.leb_spec 1024 (Z.log2 m + e)) as [| _]; [lia |].
  split; [f_equal; unfold k; lia |]. split; [exact Hlt |].
  destruct (Z.le_gt_cases (-1074) (fl - 52)) as [Hnorm | Hsub].
  - left. assert (k = 52 - fl) as -> by (unfold k, e; lia).
    apply ge_pow2_shift; [lia .. | exact HL].
  - right. unfold k, e. lia.
Qed.

(** The sign of a rounded quotient is the sign asked for, and its
    significand is not negative. *)
Lemma round_sign neg a b :
  0 <= a -> 0 < b ->
  match round neg a b with
  | Finite s m _ => s = neg /\ 0 <= m
  | Inf s => s = neg
  | NaN => False
  end.
Proof.
  intros Ha Hb. unfold round.
  destruct (a =? 0); [done |].
  destruct (1024 <=? _); [done |]. split; [done |].
  unfold significand. etransitivity; [| apply rne_div_floor].
  - apply Z.div_pos; [apply Z.mul_nonneg_nonneg; [lia | apply Z.pow_nonneg; lia] |].
    apply Z.mul_pos_pos; [lia | apply pow2_pos; lia].
  - apply Z.mul_pos_pos; [lia | apply pow2_pos; lia].
Qed.

(** [x * 100] for a finite [x] with an exponent that is not positive. *)
Lemma mul_int_100 s m k :
  0 <= k ->
  mul_int (Finite s m (- k)) 100
  = Ok (round s (m * 7036874417766400) (2 ^ (k + 46))).
Proof.
  intros Hk. unfold mul_int.
  change (of_int 100) with (Ok (Finite false 7036874417766400 (-46))).
  cbn [mul]. rewrite xorb_false_r.
  rewrite (Z.max_l 0 (- k + -46)), (Z.max_r 0 (- (- k + -46))), Z.mul_1_r by lia.
  do 3 f_equal. lia.
Qed.

(** When the output is not larger than the source, and the source is
    below 2^53 bytes, the reduction is printed without a sign, between
    0.0 and 100.0, and within a twentieth of a percent (and 2^-39 of
    that) of the exact 100 * (original_size - new_size) / original_size:
    the two roundings of the floats do not show. *)
Theorem reduction_tenths original_size new_size :
  0 < original_size < 2 ^ 53 -> 0 <= new_size <= original_size ->
  exists ratio percent,
    truediv (original_size - new_size) original_size = Ok ratio
    /\ mul_int ratio 100 = Ok percent
    /\ format_1f percent
       = pretty (tenths percent / 10) +:+ "." +:+ pretty (tenths percent mod 10)
    /\ 0 <= tenths percent <= 1000
    /\ 2 ^ 40 * Z.abs (tenths percent * original_size - 1000 * (original_size - new_size))
       <= (2 ^ 39 + 1) * original_size.
Proof.
  intros [Ho Ho53] [Hn Hno].
  set (o := original_size) in *. set (d := o - new_size).
  assert (0 <= d <= o) as Hd by (unfold d; lia).
  unfold truediv.
  destruct (Z.eqb_spec o 0) as [| _]; [lia |].
  replace (d <? 0) with false by (symmetry; apply Z.ltb_ge; lia).
  replace (o <? 0) with false by (symmetry; apply Z.ltb_ge; lia).
  rewrite (Z.abs_eq d), (Z.abs_eq o) by lia. cbn [xorb].
  destruct (Z.eq_dec d 0) as [-> | Hd0].
  { exists (Finite false 0 0), (Finite false 0 0).
    split; [reflexivity |]. split; [apply (mul_int_100 false 0 0); lia |].
    split; [reflexivity |]. split; [by vm_compute |].
    change (tenths (Finite false 0 0)) with 0. rewrite Z.mul_0_l, Z.mul_0_r. cbn. lia. }
  (* the ratio *)
  destruct (round_fraction false d o) as (k1 & Hk1 & Hr1 & HA53 & Hnorm1); [lia .. |].
  rewrite Hr1. clear Hr1.
  set (A := 2 ^ k1) in *.
  assert (0 < A) as HA by (apply pow2_pos; lia).
  assert (o * 2 ^ 52 <= d * A) as HA52.
  { destruct Hnorm1 as [| ->]; [done |].
    unfold A. assert (2 ^ 53 <= 2 ^ 1074) by (apply Z.pow_le_mono_r; lia). nia. }
  assert (2 ^ 52 <= A) as HAge by nia.
  set (m1 := rne_div (d * A) o).
  pose proof (rne_div_bounds (d * A) o Ho) as [H1L H1U]. fold m1 in H1L, H1U.
  assert (2 ^ 52 <= m1 <= A) as Hm1 by nia.
  (* the percentage *)
  exists (Finite false m1 (- k1)). rewrite mul_int_100 by lia.
  rewrite Z.pow_add_r by lia. fold A.
  destruct (round_fraction false (m1 * 7036874417766400) (A * 2 ^ 46))
    as (k2 & Hk2 & Hr2 & _ & Hnorm2); [lia .. | nia |].
  rewrite Hr2. clear Hr2.
  set (B := 2 ^ k2) in *.
  assert (0 < B) as HB by (apply pow2_pos; lia).
  assert (2 ^ 45 <= B) as HBge.
  { destruct Hnorm2 as [Hn2 | ->].
    - change 7036874417766400 with (100 * 2 ^ 46) in Hn2. nia.
    - apply Z.pow_le_mono_r; lia. }
  set (m2 := rne_div (m1 * 7036874417766400 * B) (A * 2 ^ 46)).
  pose proof (rne_div_bounds (m1 * 7036874417766400 * B) (A * 2 ^ 46) ltac:(lia))
    as [H2L H2U].
  fold m2 in H2L, H2U.
  change 7036874417766400 with (100 * 2 ^ 46) in H2L, H2U.
  assert (- A <= 2 * A * m2 - 200 * m1 * B <= A) as H2 by lia.
  assert (0 <= m2) as Hm2.
  { unfold m2. etransitivity; [| apply rne_div_floor; lia]. apply Z.div_pos; lia. }
  eexists. split; [reflexivity |]. split; [reflexivity |].
  split; [reflexivity |].
  unfold tenths.
  rewrite (Z.max_l 0 (- k2)), (Z.max_r 0 (- - k2)), Z.mul_1_r, Z.opp_involutive by lia.
  fold B.
  set (t := rne_div (m2 * 10) B).
  pose proof (rne_div_bounds (m2 * 10) B HB) as [H3L H3U]. fold t in H3L, H3U.
  assert (0 <= t) as Ht.
  { unfold t. etransitivity; [| apply rne_div_floor; lia]. apply Z.div_pos; lia. }
  (* the three roundings together *)
  set (u := 2 * B * t - 20 * m2). set (v := 2 * A * m2 - 200 * m1 * B).
  set (x := 2 * o * m1 - 2 * d * A).
  assert (- B <= u <= B) as Hu by (unfold u; lia).
  assert (- A <= v <= A) as Hv by (unfold v; lia).
  assert (- o <= x <= o) as Hx by (unfold x; lia).
  set (E := t * o - 1000 * d).
  assert (2 * A * B * E = A * o * u + 10 * o * v + 1000 * B * x) as HE
      by (unfold E, u, v, x; ring).
  assert (forall c y b, 0 <= c -> - b <= y <= b -> - (c * b) <= c * y <= c * b) as Hscale
      by (clear; intros; nia).
  pose proof (Hscale (A * o) u B ltac:(lia) Hu) as Hu'.
  pose proof (Hscale (10 * o) v A ltac:(lia) Hv) as Hv'.
  pose proof (Hscale (1000 * B) x o ltac:(lia) Hx) as Hx'.
  assert (2 * A * B * Z.abs E <= A * o * B + 10 * o * A + 1000 * B * o) as Hsum.
  { destruct (Z.abs_spec E) as [[_ ->] | [_ ->]]; lia. }
  assert (2 ^ 40 * (10 * A + 1000 * B) <= 2 * (A * B)) as Hsmall.
  { assert (A * (2 ^ 40 * 10) <= A * B) by (apply Z.mul_le_mono_nonneg_l; lia).
    assert ((2 ^ 40 * 1000) * B <= A * B) by (apply Z.mul_le_mono_nonneg_r; lia). lia. }
  assert (2 ^ 40 * Z.abs E <= (2 ^ 39 + 1) * o) as Hgoal.
  { assert (0 < A * B) as HAB by (apply Z.mul_pos_pos; lia).
    apply (Z.mul_le_mono_pos_l _ _ (2 * (A * B))); [lia |].
    assert (2 ^ 40 * (10 * A + 1000 * B) * o <= 2 * (A * B) * o) as Hsmall'
        by (apply Z.mul_le_mono_nonneg_r; lia).
    lia. }
  split; [| exact Hgoal].
  split; [exact Ht |].
  assert (2 ^ 40 * (t * o) < 2 ^ 40 * (1001 * o)) as Hlt.
  { pose proof (Z.abs_spec E) as HabsE. unfold E in *. lia. }
  apply Z.mul_lt_mono_pos_l in Hlt; [| lia].
  apply Z.mul_lt_mono_pos_r in Hlt; lia.
Qed.

Lemma pretty_N_go_app x s r : pretty_N_go x s +:+ r = pretty_N_go x (s +:+ r).
Proof.
  revert s. induction (N.lt_wf_0 x) as [x _ IH]; intros s.
  assert (x = 0 \/ 0 < x)%N as [-> | Hx] by lia.
  - by rewrite !pretty_N_go_0.
  - rewrite (pretty_N_go_step x s), (pretty_N_go_step x (s +:+ r)) by done.
    rewrite IH by (by apply N.div_lt). reflexivity.
Qed.

(** The decimal digits of a number that is not negative do not start
    with a minus sign. *)
Lemma pretty_nonneg_no_dash (z : Z) r r' :
  0 <= z -> r ≠ "-" +:+ r' -> pretty z +:+ r ≠ "-" +:+ r'.
Proof.
  intros Hz Hr. destruct z as [| p | p]; [discriminate | | lia].
  unfold pretty, pretty_Z, pretty, pretty_positive, pretty, pretty_N.
  destruct (decide (N.pos p = 0%N)) as [| _]; [discriminate |].
  rewrite pretty_N_go_app. by apply pretty_N_go_ne_dash.
Qed.

(** The reduction is printed with a minus sign exactly when the output
    is larger than the source. *)
Theorem reduction_sign original_size new_size ratio percent :
  0 < original_size -> 0 <= new_size ->
  truediv (original_size - new_size) original_size = Ok ratio ->
  mul_int ratio 100 = Ok percent ->
  (exists rest, format_1f percent = "-" +:+ rest) <-> original_size < new_size.
Proof.
  intros Ho Hn. set (o := original_size). set (d := o - new_size).
  unfold truediv.
  destruct (Z.eqb_spec o 0) as [| _]; [lia |].
  replace (o <? 0) with false by (symmetry; apply Z.ltb_ge; lia).
  rewrite xorb_false_r.
  pose proof (round_sign (d <? 0) (Z.abs d) (Z.abs o) ltac:(lia) ltac:(lia)) as Hs1.
  destruct (round (d <? 0) (Z.abs d) (Z.abs o)) as [s1 m1 e1 | s1 |]; [| done ..].
  destruct Hs1 as [-> Hm1]. intros [= <-].
  unfold mul_int. change (of_int 100) with (Ok (Finite false 7036874417766400 (-46))).
  cbn [mul]. rewrite xorb_false_r. intros [= <-].
  match goal with
  | |- context [round ?s ?a ?b] =>
      pose proof (round_sign s a b) as Hs2; destruct (round s a b) as [s2 m2 e2 | s2 |]
  end.
  - destruct Hs2 as [-> Hm2].
    { apply Z.mul_nonneg_nonneg; [lia | apply Z.pow_nonneg; lia]. }
    { apply pow2_pos; lia. }
    destruct (Z.ltb_spec d 0) as [Hneg | Hpos].
    + split; [unfold d in Hneg; lia | intros _]. by eexists.
    + split; [| unfold d in Hpos; lia]. intros [rest Hrest]. exfalso.
      revert Hrest. cbn [format_1f]. apply pretty_nonneg_no_dash; [| discriminate].
      apply Z.div_pos; [| lia]. unfold tenths.
      etransitivity; [| apply rne_div_floor; apply pow2_pos; lia].
      apply Z.div_pos; [| apply pow2_pos; lia].
      apply Z.mul_nonneg_nonneg; [lia | apply Z.pow_nonneg; lia].
  - assert (s2 = (d <? 0)) as ->.
    { apply Hs2; [apply Z.mul_nonneg_nonneg; [lia | apply Z.pow_nonneg; lia]
                 | apply pow2_pos; lia]. }
    destruct (Z.ltb_spec d 0) as [Hneg | Hpos].
    + split; [unfold d in Hneg; lia | intros _]. by eexists.
    + split; [| unfold d in Hpos; lia]. intros [rest Hrest]. discriminate.
  - exfalso. apply Hs2; [apply Z.mul_nonneg_nonneg; [lia | apply Z.pow_nonneg; lia]
                        | apply pow2_pos; lia].
Qed.

End Reduction.

(** ** The further properties on concrete inputs *)


Lemma reduction_tenths_witness :
  exists ratio percent,
    Float.truediv (2621440 - 1310720) 2621440 = Ok ratio
    /\ Float.mul_int ratio 100 = Ok percent
    /\ Float.format_1f percent
       = pretty (Float.tenths percent / 10) +:+ "." +:+ pretty (Float.tenths percent mod 10)
    /\ 0 <= Float.tenths percent <= 1000
    /\ 2 ^ 40 * Z.abs (Float.tenths percent * 2621440 - 1000 * (2621440 - 1310720))
       <= (2 ^ 39 + 1) * 2621440.
Proof. apply (reduction_tenths 2621440 1310720); lia. Defined.

Lemma reduction_sign_witness :
  (exists rest, Float.format_1f (Finite true 7378697629483820 (-66)) = "-" +:+ rest)
  <-> 1000000 < 1000001.
Proof.
  apply (reduction_sign 1000000 1000001 (Finite true 4722366482869645 (-72))).
  - lia.
  - lia.
  - vm_compute. reflexivity.
  - vm_compute. reflexivity.
Defined.

Lemma run_completes_when_witness :
  exists w', Rows.run (Rows.source Byte.x78 2) = (Ok tt, w').
Proof.
  refine (run_completes_when Rows.size Rows.decode Rows.resize Rows.encode Rows.write
            (Rows.source Byte.x78 2) (Byte.x78 :: repeat Byte.x00 2)
            (Byte.x78 :: repeat Byte.x00 2) [Byte.x3c; Byte.x00] _ _ _ _ _ _ _ _).
  - vm_compute. reflexivity.
  - reflexivity.
  - vm_compute. reflexivity.
  - vm_compute. split; discriminate.
  - vm_compute. reflexivity.
  - reflexivity.
  - vm_compute. split; reflexivity.
  - vm_compute. reflexivity.
Defined.

Lemma rerun_same_files_witness :
  exists w'',
    Rows.run (Rows.run (Rows.source Byte.x78 2)).2 = (Ok tt, w'')
    /\ files w'' = files (Rows.run (Rows.source Byte.x78 2)).2.
Proof.
  refine (rerun_same_files Rows.size Rows.decode Rows.resize Rows.encode Rows.write
            (Rows.source Byte.x78 2) _ _).
  vm_compute. reflexivity.
Defined.



Lemma failed_write_fails_witness :
  exists w',
    resize_image Rows.size Rows.decode Rows.resize Rows.encode (fun _ _ => Partial 1)
      (Rows.source Byte.x78 2) = (Raise OSError, w')
    /\ stdout w' = stdout (Rows.source Byte.x78 2)
                   ++ [ "Original size: " +:+ repr_size (Rows.size [Byte.x78; Byte.x00; Byte.x00]);
                        "New size: 1920x" +:+ pretty 1 ]
    /\ calls w' = calls (Rows.source Byte.x78 2)
                  ++ [COpen src_path; CResize (1920, 1) LANCZOS; CSave out_path "PNG" true]
    /\ files w' = <[out_path := take 1 (Rows.encode [Byte.x3c; Byte.x00] "PNG" true)]>
                    (files (Rows.source Byte.x78 2)).
Proof.
  refine (failed_write_fails Rows.size Rows.decode Rows.resize Rows.encode
            (fun _ _ => Partial 1) (Rows.source Byte.x78 2)
            [Byte.x78; Byte.x00; Byte.x00] [Byte.x78; Byte.x00; Byte.x00] 1
            [Byte.x3c; Byte.x00] _ _ _ _ _).
  - vm_compute. reflexivity.
  - reflexivity.
  - vm_compute. reflexivity.
  - vm_compute. reflexivity.
  - discriminate.
Defined.

